(** * SuperAgent-UI: the conversation controller of [App.jsx]

    A shallow embedding of the [App] component of
    [SuperAgent-UI/src/App.jsx]: its four [useState] cells, the
    [handleSubmit] event handler with its optimistic append and rollback,
    and the [disabled] projections of the rendered form.

    The handler is asynchronous.  It is embedded as the two synchronous
    halves that the single [await] separates: [handleSubmit_begin] runs
    from the form event to the call of [axios.post], [handleSubmit_resume]
    runs from the settlement of that promise to the end of the [finally]
    block.  Both halves live in a small monad that threads the component
    state and logs every effect in program order. *)

From Stdlib Require Import String Ascii.
From Stdlib Require Import List NArith ZArith Bool Lia.
From Stdlib Require Import DecimalString DecimalNat.
Import ListNotations.

(** ** The fragment of JavaScript the component uses *)

Module JS.

(** A JavaScript string is a sequence of UTF-16 code units. *)
Definition code_unit := N.
Definition jsstring := list code_unit.

(** Source literals are ASCII: one code unit per character. *)
Definition lit (s : string) : jsstring :=
  map N_of_ascii (list_ascii_of_string s).

(** ECMAScript [WhiteSpace]: TAB, VT, FF, SP, NBSP, ZWNBSP and the
    code points of category Zs (all of them in the basic plane). *)
Definition is_white_space (c : code_unit) : bool :=
  ((c =? 0x9) || (c =? 0xB) || (c =? 0xC) || (c =? 0x20) || (c =? 0xA0)
   || (c =? 0x1680) || ((0x2000 <=? c) && (c <=? 0x200A))
   || (c =? 0x202F) || (c =? 0x205F) || (c =? 0x3000) || (c =? 0xFEFF))%N.

(** ECMAScript [LineTerminator]: LF, CR, LS, PS. *)
Definition is_line_terminator (c : code_unit) : bool :=
  ((c =? 0xA) || (c =? 0xD) || (c =? 0x2028) || (c =? 0x2029))%N.

Definition is_trimmable (c : code_unit) : bool :=
  is_white_space c || is_line_terminator c.

Fixpoint trim_start (s : jsstring) : jsstring :=
  match s with
  | [] => []
  | c :: rest => if is_trimmable c then trim_start rest else s
  end.

Definition trim_end (s : jsstring) : jsstring :=
  rev (trim_start (rev s)).

(** [String.prototype.trim] *)
Definition trim (s : jsstring) : jsstring := trim_end (trim_start s).

(** The values a parsed response body (or anything else the promise
    resolves with) can be.  Numbers are never inspected by the
    component; they are carried as opaque integers.  An object is the
    list of its own properties, the binding in force first. *)
#[local] Unset Elimination Schemes.
Inductive value : Type :=
| JUndefined
| JNull
| JBool (b : bool)
| JNum (n : Z)
| JStr (s : jsstring)
| JArr (items : list value)
| JObj (fields : list (jsstring * value)).
#[local] Set Elimination Schemes.

Definition jsstring_eqb (a b : jsstring) : bool :=
  if list_eq_dec N.eq_dec a b then true else false.

Fixpoint lookup (k : jsstring) (fields : list (jsstring * value))
  : option value :=
  match fields with
  | [] => None
  | (k', v) :: rest => if jsstring_eqb k k' then Some v else lookup k rest
  end.

Definition is_nullish (v : value) : bool :=
  match v with
  | JUndefined | JNull => true
  | _ => false
  end.

(** [v?.k]: [undefined] on a nullish base, otherwise the property
    read.  A property that an object does not have reads as
    [undefined]; so does any non-index, non-builtin property of a
    primitive or of an array. *)
Definition optional_get (v : value) (k : jsstring) : value :=
  match v with
  | JUndefined | JNull => JUndefined
  | JObj fields =>
      match lookup k fields with
      | Some x => x
      | None => JUndefined
      end
  | JBool _ | JNum _ | JStr _ | JArr _ => JUndefined
  end.

(** [a ?? b] *)
Definition nullish_coalesce (a b : value) : value :=
  if is_nullish a then b else a.

(** [!s] for a string [s]: only the empty string is falsy. *)
Definition not_string (s : jsstring) : bool :=
  match s with
  | [] => true
  | _ :: _ => false
  end.

(** [Array.prototype.slice(start, end)] with both arguments given:
    negative indices count from the end, everything is clamped to
    [0 .. length]. *)
Definition relative_index (len i : Z) : Z :=
  if (i <? 0)%Z then Z.max (len + i) 0 else Z.min i len.

Definition slice {A : Type} (start stop : Z) (l : list A) : list A :=
  let len := Z.of_nat (length l) in
  let k := relative_index len start in
  let final := relative_index len stop in
  firstn (Z.to_nat (final - k)) (skipn (Z.to_nat k) l).

End JS.

Import JS.

(** ** Component state *)

(** [role] is one of the two literals ['user'] and ['agent']. *)
Inductive Role : Type := user | agent.

Record Message : Type := mkMessage { role : Role; content : value }.

(** The four [useState] cells of [App]; [null] is [None]. *)
Record AppState : Type := mkAppState {
  prompt : jsstring;
  messages : list Message;
  isLoading : bool;
  error : option jsstring
}.

(** [useState('')], [useState([])], [useState(false)], [useState(null)] *)
Definition initial_state : AppState :=
  {| prompt := []; messages := []; isLoading := false; error := None |}.

Definition API_URL : jsstring := lit "http://localhost:8000/api/agent/query".

Definition NO_RESPONSE : jsstring := lit "No response received.".

Definition CONTACT_ERROR : jsstring :=
  lit "Unable to contact the SuperAgent backend. Please try again.".

(** The arguments of the one call of [axios.post]. *)
Record Request : Type := mkRequest {
  url : jsstring;
  body : list (jsstring * value);
  headers : list (jsstring * jsstring)
}.

(** How the awaited promise settles: fulfilled with a response whose
    [data] is given, or rejected (the [err] is never inspected). *)
Inductive Outcome : Type :=
| Resolved (data : value)
| Rejected.

(** ** Effects, in program order *)

Inductive Effect : Type :=
| PreventDefault
| SetMessages (f : list Message -> list Message)
| SetPrompt (v : jsstring)
| SetIsLoading (b : bool)
| SetError (e : option jsstring)
| AxiosPost (r : Request).

(** The state cell an effect writes, if any. *)
Inductive Cell : Type := CPrompt | CMessages | CIsLoading | CError.

Definition written_cell (e : Effect) : option Cell :=
  match e with
  | SetMessages _ => Some CMessages
  | SetPrompt _ => Some CPrompt
  | SetIsLoading _ => Some CIsLoading
  | SetError _ => Some CError
  | PreventDefault | AxiosPost _ => None
  end.

Definition is_post (e : Effect) : bool :=
  match e with AxiosPost _ => true | _ => false end.

Definition is_set_messages (e : Effect) : bool :=
  match e with SetMessages _ => true | _ => false end.

Definition is_set_prompt (e : Effect) : bool :=
  match e with SetPrompt _ => true | _ => false end.

Definition is_set_loading (b : bool) (e : Effect) : bool :=
  match e with SetIsLoading b' => Bool.eqb b b' | _ => false end.

Definition is_set_error (e : Effect) : bool :=
  match e with SetError _ => true | _ => false end.

Definition is_clear_error (e : Effect) : bool :=
  match e with SetError None => true | _ => false end.

Definition writes_state (e : Effect) : bool :=
  match written_cell e with Some _ => true | None => false end.

(** Position of the first effect satisfying [p], and "the first [p]
    happens strictly before the first [q]". *)
Fixpoint index_of (p : Effect -> bool) (log : list Effect) : option nat :=
  match log with
  | [] => None
  | e :: rest =>
      if p e then Some 0
      else match index_of p rest with
           | Some i => Some (S i)
           | None => None
           end
  end.

Definition occurs_before (p q : Effect -> bool) (log : list Effect) : bool :=
  match index_of p log, index_of q log with
  | Some i, Some j => (i <? j)%nat
  | _, _ => false
  end.

(** ** The handler monad: component state plus effect log *)

Definition Handler (A : Type) : Type := AppState -> A * AppState * list Effect.

Definition ret {A : Type} (a : A) : Handler A := fun s => (a, s, []).

Definition bind {A B : Type} (m : Handler A) (k : A -> Handler B) : Handler B :=
  fun s =>
    let '(a, s1, log1) := m s in
    let '(b, s2, log2) := k a s1 in
    (b, s2, log1 ++ log2).

Declare Scope handler_scope.
Delimit Scope handler_scope with handler.
Notation "x <- m ;; k" := (bind m (fun x => k))
  (at level 61, m at next level, right associativity) : handler_scope.
Notation "m ;; k" := (bind m (fun _ => k))
  (at level 61, right associativity) : handler_scope.
Local Open Scope handler_scope.

Definition result_of {A : Type} (r : A * AppState * list Effect) : A :=
  fst (fst r).
Definition state_of {A : Type} (r : A * AppState * list Effect) : AppState :=
  snd (fst r).
Definition log_of {A : Type} (r : A * AppState * list Effect) : list Effect :=
  snd r.

(** [event.preventDefault()] *)
Definition preventDefault : Handler unit :=
  fun s => (tt, s, [PreventDefault]).

(** Reading the [prompt] of the render the handler closes over. *)
Definition read_prompt : Handler jsstring :=
  fun s => (prompt s, s, []).

(** [setMessages(f)] with a functional updater. *)
Definition setMessages (f : list Message -> list Message) : Handler unit :=
  fun s =>
    (tt,
     {| prompt := prompt s; messages := f (messages s);
        isLoading := isLoading s; error := error s |},
     [SetMessages f]).

Definition setPrompt (v : jsstring) : Handler unit :=
  fun s =>
    (tt,
     {| prompt := v; messages := messages s;
        isLoading := isLoading s; error := error s |},
     [SetPrompt v]).

Definition setIsLoading (b : bool) : Handler unit :=
  fun s =>
    (tt,
     {| prompt := prompt s; messages := messages s;
        isLoading := b; error := error s |},
     [SetIsLoading b]).

Definition setError (e : option jsstring) : Handler unit :=
  fun s =>
    (tt,
     {| prompt := prompt s; messages := messages s;
        isLoading := isLoading s; error := e |},
     [SetError e]).

(** Issuing [axios.post(url, body, config)]; the promise is awaited by
    the caller. *)
Definition axios_post (r : Request) : Handler Request :=
  fun s => (r, s, [AxiosPost r]).

(** ** [handleSubmit] *)

Definition append_message (m : Message) : list Message -> list Message :=
  fun prev => prev ++ [m].

Definition drop_last : list Message -> list Message :=
  fun prev => slice 0 (-1) prev.

Definition post_request (trimmedPrompt : jsstring) : Request :=
  {| url := API_URL;
     body := [(lit "prompt", JStr trimmedPrompt)];
     headers := [(lit "Content-Type", lit "application/json")] |}.

(** Lines 13 to 31: from the form event to the call of [axios.post].
    The result is the request whose promise is now awaited, or [None]
    when the handler returned at line 17. *)
Definition handleSubmit_begin : Handler (option Request) :=
  preventDefault ;;
  p <- read_prompt ;;
  let trimmedPrompt := trim p in
  if not_string trimmedPrompt then ret None
  else
    let userMessage := {| role := user; content := JStr trimmedPrompt |} in
    setMessages (append_message userMessage) ;;
    setPrompt [] ;;
    setIsLoading true ;;
    setError None ;;
    r <- axios_post (post_request trimmedPrompt) ;;
    ret (Some r).

(** Lines 33 to 40: the rest of the [try] block when the promise is
    fulfilled, the [catch] block when it is rejected, then [finally]. *)
Definition handleSubmit_resume (o : Outcome) : Handler unit :=
  match o with
  | Resolved data =>
      let agentResponse :=
        nullish_coalesce (optional_get data (lit "response")) (JStr NO_RESPONSE) in
      setMessages (append_message {| role := agent; content := agentResponse |})
  | Rejected =>
      setError (Some CONTACT_ERROR) ;;
      setMessages drop_last
  end ;;
  setIsLoading false.

(** One whole invocation with nothing interleaved: begin, and when a
    request was issued, resume with its outcome. *)
Definition handleSubmit (o : Outcome) : Handler (option Request) :=
  r <- handleSubmit_begin ;;
  match r with
  | None => ret None
  | Some req => handleSubmit_resume o ;; ret (Some req)
  end.

(** ** The rendered form and the event loop *)

(** [disabled={isLoading}] on the text input (line 101) and on the
    submit button (line 106). *)
Definition input_disabled (s : AppState) : bool := isLoading s.
Definition button_disabled (s : AppState) : bool := isLoading s.

(** [onChange={(event) => setPrompt(event.target.value)}] *)
Definition onChange (v : jsstring) : Handler unit := setPrompt v.

(** The component together with the promises still pending. *)
Record Sys : Type := mkSys {
  ui : AppState;
  inflight : list Request
}.

Definition init : Sys := {| ui := initial_state; inflight := [] |}.

(** What can happen next: the user edits the input, a submit event
    reaches the form, or the [i]-th pending promise settles. *)
Inductive Action : Type :=
| Change (v : jsstring)
| Submit
| Settle (i : nat) (o : Outcome).

Definition is_settle (a : Action) : bool :=
  match a with Settle _ _ => true | _ => false end.

Fixpoint remove_nth {A : Type} (i : nat) (l : list A) : list A :=
  match l, i with
  | [], _ => []
  | _ :: rest, O => rest
  | x :: rest, S j => x :: remove_nth j rest
  end.

Definition issued (r : option Request) : list Request :=
  match r with
  | Some q => [q]
  | None => []
  end.

(** A disabled input takes no edits, so [Change] needs the input
    enabled.  [Submit] is deliberately not gated by the disabled button:
    the handler is run whenever a submit event arrives, which covers
    every way the browser can deliver one. *)
Definition step (a : Action) (w : Sys) : option Sys :=
  match a with
  | Change v =>
      if input_disabled (ui w) then None
      else Some {| ui := state_of (onChange v (ui w)); inflight := inflight w |}
  | Submit =>
      let r := handleSubmit_begin (ui w) in
      Some {| ui := state_of r; inflight := inflight w ++ issued (result_of r) |}
  | Settle i o =>
      match nth_error (inflight w) i with
      | None => None
      | Some _ =>
          Some {| ui := state_of (handleSubmit_resume o (ui w));
                  inflight := remove_nth i (inflight w) |}
      end
  end.

Fixpoint run (acts : list Action) (w : Sys) : option Sys :=
  match acts with
  | [] => Some w
  | a :: rest =>
      match step a w with
      | Some w' => run rest w'
      | None => None
      end
  end.

Definition reachable (w : Sys) : Prop := exists acts, run acts init = Some w.

(** The invariant behind single flight: while loading, the input is
    empty and exactly one promise is pending; otherwise none is. *)
Definition single_flight (w : Sys) : Prop :=
  if isLoading (ui w)
  then prompt (ui w) = [] /\ length (inflight w) = 1%nat
  else inflight w = [].

(** Cells other than [messages] that a log is allowed to write. *)
Definition Cell_eqb (a b : Cell) : bool :=
  match a, b with
  | CPrompt, CPrompt | CMessages, CMessages
  | CIsLoading, CIsLoading | CError, CError => true
  | _, _ => false
  end.

Definition touches_only (cells : list Cell) (log : list Effect) : bool :=
  forallb (fun e =>
             match written_cell e with
             | None => true
             | Some c => existsb (Cell_eqb c) cells
             end) log.

(** Concrete states used in the examples below. *)
Definition buy_aapl : jsstring := lit "Buy AAPL?".

Definition typed (p : jsstring) (ms : list Message) : AppState :=
  {| prompt := p; messages := ms; isLoading := false; error := None |}.

Definition user_says (p : jsstring) : Message :=
  {| role := user; content := JStr p |}.

Definition agent_says (c : value) : Message :=
  {| role := agent; content := c |}.

(** A parsed JSON object, as opposed to a primitive, an array, or text
    that was not parsed at all. *)
Definition is_plain_object (v : value) : bool :=
  match v with
  | JObj _ => true
  | _ => false
  end.

(** The entries a whole invocation leaves behind the prior messages,
    and the entries behind them while its request is pending. *)
Definition settled_tail (s : AppState) (o : Outcome) : list Message :=
  match trim (prompt s), o with
  | [], _ => []
  | _ :: _, Rejected => []
  | (_ :: _) as p, Resolved data =>
      [user_says p;
       agent_says (nullish_coalesce (optional_get data (lit "response"))
                                    (JStr NO_RESPONSE))]
  end.

Definition pending_tail (s : AppState) : list Message :=
  match trim (prompt s) with
  | [] => []
  | (_ :: _) as p => [user_says p]
  end.

(** A state with [p] typed into the input of a fresh session, and the
    state of a session whose first request is pending. *)
Definition with_prompt (p : jsstring) : Sys :=
  {| ui := typed p []; inflight := [] |}.

Definition awaiting : Sys :=
  {| ui := {| prompt := []; messages := [user_says buy_aapl];
              isLoading := true; error := None |};
     inflight := [post_request buy_aapl] |}.

(** ** The rendered view (lines 43 to 116)

    The data-dependent part of the JSX that [App] returns: the hint shown
    for an empty conversation, one bubble per message, the controlled
    input, the submit button and the error line.  The header with its
    three constant figures depends on no state and is left out. *)

(** The string a [role] is in the source. *)
Definition role_name (r : Role) : jsstring :=
  match r with
  | user => lit "user"
  | agent => lit "agent"
  end.

(** [message.role === 'user'] *)
Definition is_user (m : Message) : bool :=
  match role m with
  | user => true
  | agent => false
  end.

Definition is_agent (m : Message) : bool := negb (is_user m).

(** An array index inside a template literal: its decimal digits. *)
Definition number_to_string (n : nat) : jsstring :=
  lit (NilEmpty.string_of_uint (Nat.to_uint n)).

(** One message of the thread: the [key] and [className] of the row,
    the [className] of the bubble and its child. *)
Record Bubble : Type := mkBubble {
  key : jsstring;
  row_class : jsstring;
  bubble_class : jsstring;
  text : value
}.

(** The callback of [messages.map] (lines 72 to 87). *)
Definition render_message (message : Message) (index : nat) : Bubble :=
  {| key := role_name (role message) ++ lit "-" ++ number_to_string index;
     row_class :=
       lit "flex " ++
       (if is_user message then lit "justify-end" else lit "justify-start");
     bubble_class :=
       lit "inline-block max-w-[80%] rounded-lg px-4 py-2 text-sm leading-relaxed " ++
       (if is_user message
        then lit "bg-emerald-500 text-slate-900"
        else lit "bg-slate-800 text-slate-100");
     text := content message |}.

(** [Array.prototype.map] with the index passed to the callback. *)
Fixpoint map_from {A B : Type} (f : A -> nat -> B) (i : nat) (l : list A)
  : list B :=
  match l with
  | [] => []
  | x :: rest => f x i :: map_from f (S i) rest
  end.

Definition array_map {A B : Type} (f : A -> nat -> B) (l : list A) : list B :=
  map_from f 0 l.

Record View : Type := mkView {
  empty_hint : option jsstring;
  bubbles : list Bubble;
  input_value : jsstring;
  input_off : bool;
  button_off : bool;
  button_label : jsstring;
  error_line : option jsstring
}.

Definition render (s : AppState) : View :=
  {| empty_hint :=
       if (length (messages s) =? 0)%nat
       then Some (lit "Start the conversation by asking about trading strategies.")
       else None;
     bubbles := array_map render_message (messages s);
     input_value := prompt s;
     input_off := input_disabled s;
     button_off := button_disabled s;
     button_label := if isLoading s then lit "Sending..." else lit "Send";
     error_line :=
       match error s with
       | None => None
       | Some e => if not_string e then None else Some e
       end |}.

(** ** Shape of a conversation *)

(** A list of complete exchanges: a user message, then an agent
    message, any number of times. *)
Fixpoint well_paired (ms : list Message) : bool :=
  match ms with
  | [] => true
  | u :: rest =>
      match rest with
      | [] => false
      | a :: rest' => is_user u && is_agent a && well_paired rest'
      end
  end.

(** What a stored message can hold: a user message holds a non-empty
    string that [trim] leaves alone, an agent message holds anything but
    [null] and [undefined]. *)
Definition message_ok (m : Message) : bool :=
  match role m, content m with
  | user, JStr p => negb (not_string p) && jsstring_eqb (trim p) p
  | user, _ => false
  | agent, c => negb (is_nullish c)
  end.

(** Requests answered with a fulfilled promise along a run. *)
Definition is_answer (a : Action) : bool :=
  match a with
  | Settle _ (Resolved _) => true
  | _ => false
  end.

Definition loading_count (s : AppState) : nat :=
  if isLoading s then 1%nat else 0%nat.

Definition set_prompt_of (s : AppState) (p : jsstring) : AppState :=
  {| prompt := p; messages := messages s;
     isLoading := isLoading s; error := error s |}.

(** The shape of the thread in a state of the event loop: complete
    exchanges only when idle; while loading, complete exchanges followed
    by the one user message whose request is pending. *)
Definition conversation_shape (w : Sys) : Prop :=
  if isLoading (ui w)
  then exists pre p,
         messages (ui w) = pre ++ [user_says p] /\
         well_paired pre = true /\
         inflight w = [post_request p]
  else well_paired (messages (ui w)) = true.

(** The error cell holds nothing or the one fixed string, and nothing
    while a request is pending. *)
Definition error_shape (s : AppState) : Prop :=
  match error s with
  | None => True
  | Some e => e = CONTACT_ERROR /\ isLoading s = false
  end.

Definition session_ok (w : Sys) : Prop :=
  single_flight w /\
  conversation_shape w /\
  forallb message_ok (messages (ui w)) = true /\
  error_shape (ui w).

(** * Properties *)

(** ** JavaScript helpers *)

Example trim_both_ends : trim (lit "  Buy AAPL?  ") = lit "Buy AAPL?".
Proof. reflexivity. Qed.

Example trim_keeps_inner_space : trim (lit " a b ") = lit "a b".
Proof. reflexivity. Qed.

Example trim_blank : trim ([0x20; 0x9; 0xA0; 0xA; 0x2003; 0xFEFF]%N) = [].
Proof. reflexivity. Qed.

Lemma not_string_false (s : jsstring) : not_string s = false <-> s <> [].
Proof. destruct s; simpl; split; congruence. Qed.

Lemma jsstring_eqb_refl (k : jsstring) : jsstring_eqb k k = true.
Proof. unfold jsstring_eqb. destruct (list_eq_dec N.eq_dec k k); congruence. Qed.

Lemma slice_drops_last {A : Type} (l : list A) (x : A) :
  slice 0 (-1) (l ++ [x]) = l.
Proof.
  unfold slice, relative_index.
  rewrite length_app. simpl length.
  replace (0 <? 0)%Z with false by reflexivity.
  replace (-1 <? 0)%Z with true by reflexivity.
  rewrite Z.min_l by lia.
  rewrite Z.max_l by lia.
  replace (Z.to_nat (Z.of_nat (length l + 1) + -1 - 0)) with (length l) by lia.
  simpl skipn.
  rewrite firstn_app, Nat.sub_diag, firstn_all. simpl.
  apply app_nil_r.
Qed.

Example slice_empty : slice 0 (-1) (@nil nat) = [].
Proof. reflexivity. Qed.

Example slice_three : slice 0 (-1) [1; 2; 3]%nat = [1; 2]%nat.
Proof. reflexivity. Qed.

(** ** The two halves of the handler, as equations *)

Lemma begin_noop (s : AppState) :
  trim (prompt s) = [] ->
  handleSubmit_begin s = (None, s, [PreventDefault]).
Proof.
  intros E. unfold handleSubmit_begin, bind, preventDefault, read_prompt.
  rewrite E. reflexivity.
Qed.

Lemma begin_accept (s : AppState) :
  trim (prompt s) <> [] ->
  handleSubmit_begin s =
    (Some (post_request (trim (prompt s))),
     {| prompt := [];
        messages := messages s ++ [user_says (trim (prompt s))];
        isLoading := true;
        error := None |},
     [PreventDefault;
      SetMessages (append_message (user_says (trim (prompt s))));
      SetPrompt [];
      SetIsLoading true;
      SetError None;
      AxiosPost (post_request (trim (prompt s)))]).
Proof.
  intros NE. unfold handleSubmit_begin, bind, preventDefault, read_prompt.
  destruct (trim (prompt s)) as [|c t] eqn:E; [congruence|].
  reflexivity.
Qed.

Lemma resume_resolved (data : value) (s : AppState) :
  handleSubmit_resume (Resolved data) s =
    (tt,
     {| prompt := prompt s;
        messages := messages s ++
          [agent_says (nullish_coalesce (optional_get data (lit "response"))
                                        (JStr NO_RESPONSE))];
        isLoading := false;
        error := error s |},
     [SetMessages (append_message
        (agent_says (nullish_coalesce (optional_get data (lit "response"))
                                      (JStr NO_RESPONSE))));
      SetIsLoading false]).
Proof. reflexivity. Qed.

Lemma resume_rejected (s : AppState) :
  handleSubmit_resume Rejected s =
    (tt,
     {| prompt := prompt s;
        messages := slice 0 (-1) (messages s);
        isLoading := false;
        error := Some CONTACT_ERROR |},
     [SetError (Some CONTACT_ERROR); SetMessages drop_last; SetIsLoading false]).
Proof. reflexivity. Qed.

Lemma resume_clears_loading (o : Outcome) (s : AppState) :
  isLoading (state_of (handleSubmit_resume o s)) = false.
Proof. destruct o; reflexivity. Qed.

(** [handleSubmit] is [begin] followed, when a request went out, by
    [resume]. *)
Lemma handleSubmit_noop (o : Outcome) (s : AppState) :
  trim (prompt s) = [] ->
  handleSubmit o s = (None, s, [PreventDefault]).
Proof.
  intros E. unfold handleSubmit, bind. rewrite (begin_noop s E). reflexivity.
Qed.

Lemma handleSubmit_state (o : Outcome) (s : AppState) :
  trim (prompt s) <> [] ->
  state_of (handleSubmit o s) =
    state_of (handleSubmit_resume o (state_of (handleSubmit_begin s))).
Proof.
  intros NE. unfold handleSubmit, bind. rewrite (begin_accept s NE).
  destruct o; reflexivity.
Qed.

Lemma handleSubmit_resolved (data : value) (s : AppState) :
  trim (prompt s) <> [] ->
  state_of (handleSubmit (Resolved data) s) =
    {| prompt := [];
       messages := messages s ++
         [user_says (trim (prompt s));
          agent_says (nullish_coalesce (optional_get data (lit "response"))
                                       (JStr NO_RESPONSE))];
       isLoading := false;
       error := None |}.
Proof.
  intros NE. unfold handleSubmit, bind. rewrite (begin_accept s NE).
  unfold state_of. simpl. unfold append_message.
  rewrite <- app_assoc. reflexivity.
Qed.

Lemma handleSubmit_rejected (s : AppState) :
  trim (prompt s) <> [] ->
  state_of (handleSubmit Rejected s) =
    {| prompt := [];
       messages := messages s;
       isLoading := false;
       error := Some CONTACT_ERROR |}.
Proof.
  intros NE. unfold handleSubmit, bind. rewrite (begin_accept s NE).
  unfold state_of. simpl. unfold drop_last, append_message.
  rewrite slice_drops_last. reflexivity.
Qed.

(** ** Single flight *)

Lemma trim_nil : trim [] = [].
Proof. reflexivity. Qed.

Lemma single_flight_init : single_flight init.
Proof. reflexivity. Qed.

Lemma single_flight_loading (w : Sys) :
  single_flight w -> isLoading (ui w) = true ->
  prompt (ui w) = [] /\ length (inflight w) = 1%nat.
Proof. unfold single_flight. intros H L. rewrite L in H. exact H. Qed.

Lemma single_flight_idle (w : Sys) :
  single_flight w -> isLoading (ui w) = false -> inflight w = [].
Proof. unfold single_flight. intros H L. rewrite L in H. exact H. Qed.

(** While a request is pending the handler returns at line 17. *)
Lemma begin_while_loading (w : Sys) :
  single_flight w -> isLoading (ui w) = true ->
  handleSubmit_begin (ui w) = (None, ui w, [PreventDefault]).
Proof.
  intros H L. destruct (single_flight_loading w H L) as [P _].
  apply begin_noop. rewrite P. apply trim_nil.
Qed.

Lemma step_single_flight (a : Action) (w w' : Sys) :
  single_flight w -> step a w = Some w' -> single_flight w'.
Proof.
  intros H St. destruct a as [v| |i o]; cbn [step] in St.
  - unfold input_disabled in St.
    destruct (isLoading (ui w)) eqn:L; [discriminate|].
    injection St as <-. unfold single_flight, state_of. simpl. rewrite L.
    apply (single_flight_idle w H L).
  - injection St as <-.
    destruct (isLoading (ui w)) eqn:L.
    + rewrite (begin_while_loading w H L).
      unfold single_flight, state_of, result_of. simpl.
      rewrite L, app_nil_r. apply (single_flight_loading w H L).
    + pose proof (single_flight_idle w H L) as Idle.
      destruct (list_eq_dec N.eq_dec (trim (prompt (ui w))) []) as [E|NE].
      * rewrite (begin_noop _ E).
        unfold single_flight, state_of, result_of. simpl.
        rewrite L, app_nil_r. exact Idle.
      * rewrite (begin_accept _ NE).
        unfold single_flight, state_of, result_of. simpl.
        rewrite Idle. split; reflexivity.
  - destruct (nth_error (inflight w) i) as [q|] eqn:Nth; [|discriminate].
    injection St as <-. unfold single_flight. cbn [ui inflight].
    rewrite resume_clears_loading.
    destruct (isLoading (ui w)) eqn:L.
    + destruct (single_flight_loading w H L) as [_ Len].
      destruct (inflight w) as [|x [|y rest]]; simpl in Len; try discriminate.
      destruct i as [|j]; [reflexivity|].
      simpl in Nth. destruct j; discriminate.
    + rewrite (single_flight_idle w H L) in Nth.
      destruct i; discriminate.
Qed.

Lemma run_single_flight (acts : list Action) :
  forall w w', single_flight w -> run acts w = Some w' -> single_flight w'.
Proof.
  induction acts as [|a rest IH]; intros w w' H R; simpl in R.
  - injection R as <-. exact H.
  - destruct (step a w) as [w1|] eqn:St; [|discriminate].
    apply (IH w1 w' (step_single_flight a w w1 H St) R).
Qed.

Lemma reachable_single_flight (w : Sys) : reachable w -> single_flight w.
Proof.
  intros [acts R]. exact (run_single_flight acts init w single_flight_init R).
Qed.

Lemma reachable_init : reachable init.
Proof. exists []. reflexivity. Qed.

Lemma reachable_step (a : Action) (w w' : Sys) :
  reachable w -> step a w = Some w' -> reachable w'.
Proof.
  intros [acts R] St. exists (acts ++ [a]).
  revert R. generalize init. induction acts as [|b rest IH]; intros w0 R; simpl in *.
  - injection R as ->. rewrite St. reflexivity.
  - destruct (step b w0) as [w1|]; [|discriminate]. apply IH. exact R.
Qed.

(** While a request is pending, nothing but its settlement changes
    anything: edits are impossible and submit events fall through. *)
Lemma pending_is_frozen (a : Action) (w w' : Sys) :
  single_flight w -> isLoading (ui w) = true ->
  is_settle a = false -> step a w = Some w' -> w' = w.
Proof.
  intros H L NS St. destruct a as [v| |i o]; simpl in St; [| |discriminate].
  - unfold input_disabled in St. rewrite L in St. discriminate.
  - rewrite (begin_while_loading w H L) in St. simpl in St.
    rewrite app_nil_r in St. injection St as <-. destruct w; reflexivity.
Qed.

Lemma pending_run_frozen (acts : list Action) :
  forall w w', single_flight w -> isLoading (ui w) = true ->
  forallb (fun a => negb (is_settle a)) acts = true ->
  run acts w = Some w' -> w' = w.
Proof.
  induction acts as [|a rest IH]; intros w w' H L NS R; simpl in *.
  - injection R as <-. reflexivity.
  - apply andb_prop in NS. destruct NS as [NSa NSr].
    apply negb_true_iff in NSa.
    destruct (step a w) as [w1|] eqn:St; [|discriminate].
    pose proof (pending_is_frozen a w w1 H L NSa St) as ->.
    apply (IH w w' H L NSr R).
Qed.

Lemma run_app (l1 l2 : list Action) :
  forall a b, run (l1 ++ l2) a = Some b ->
  exists m, run l1 a = Some m /\ run l2 m = Some b.
Proof.
  induction l1 as [|x l1 IH]; intros a b Hr; simpl in *.
  - exists a. split; [reflexivity|exact Hr].
  - destruct (step x a) as [a1|]; [|discriminate]. apply IH. exact Hr.
Qed.

(** An accepted submission, whatever the user does before the promise
    settles, ends in the state that [handleSubmit] computes. *)
Lemma accepted_cycle (w w' : Sys) (acts : list Action) (i : nat) (o : Outcome) :
  single_flight w -> isLoading (ui w) = false ->
  trim (prompt (ui w)) <> [] ->
  forallb (fun a => negb (is_settle a)) acts = true ->
  run (Submit :: acts ++ [Settle i o]) w = Some w' ->
  ui w' = state_of (handleSubmit o (ui w)) /\ inflight w' = [].
Proof.
  intros H L NE NS R.
  change (Submit :: acts ++ [Settle i o])
    with ([Submit] ++ acts ++ [Settle i o]) in R.
  destruct (run_app _ _ _ _ R) as [w1 [R1 R2]].
  destruct (run_app _ _ _ _ R2) as [w2 [R3 R4]].
  simpl in R1. injection R1 as R1.
  assert (SF1 : single_flight w1).
  { apply (step_single_flight Submit w w1 H). simpl. rewrite R1. reflexivity. }
  assert (L1 : isLoading (ui w1) = true).
  { rewrite <- R1. simpl. rewrite (begin_accept _ NE). reflexivity. }
  pose proof (@pending_run_frozen acts w1 w2 SF1 L1 NS R3) as ->.
  simpl in R4.
  destruct (nth_error (inflight w1) i) as [q|] eqn:Nth; [|discriminate].
  injection R4 as <-. simpl. split.
  - rewrite (handleSubmit_state o _ NE). rewrite <- R1. reflexivity.
  - destruct (single_flight_loading w1 SF1 L1) as [_ Len].
    destruct (inflight w1) as [|x [|y rest]]; simpl in Len; try discriminate.
    destruct i as [|j]; [reflexivity|].
    simpl in Nth. destruct j; discriminate.
Qed.

(** The handler reads no [isLoading] guard of its own: run on a state
    that the event loop cannot reach, it issues a second request. *)
Example handler_has_no_guard :
  result_of (handleSubmit_begin
               {| prompt := buy_aapl; messages := [user_says buy_aapl];
                  isLoading := true; error := None |})
  = Some (post_request buy_aapl).
Proof. reflexivity. Qed.

(** A session: a failed submission of "Buy AAPL?", then the same prompt
    typed again and answered. *)
Example failed_then_answered :
  run [Change buy_aapl; Submit; Settle 0 Rejected;
       Change buy_aapl; Submit;
       Settle 0 (Resolved (JObj [(lit "response", JStr (lit "Yes, 10 shares."))]))]
      init
  = Some {| ui := {| prompt := [];
                     messages := [user_says buy_aapl;
                                  agent_says (JStr (lit "Yes, 10 shares."))];
                     isLoading := false;
                     error := None |};
            inflight := [] |}.
Proof. reflexivity. Qed.

Example failed_once :
  run [Change buy_aapl; Submit; Settle 0 Rejected] init
  = Some {| ui := {| prompt := []; messages := []; isLoading := false;
                     error := Some CONTACT_ERROR |};
            inflight := [] |}.
Proof. reflexivity. Qed.

(** Edits are refused while the request is pending. *)
Example no_edit_while_pending :
  run [Change buy_aapl; Submit; Change buy_aapl] init = None.
Proof. reflexivity. Qed.

(** ** The request cycle *)

(** C1. For every prompt whose trimmed form is non-empty and every prior
    list of messages, when the outbound call fails the optimistic user
    entry that was appended while the request was pending is removed
    again, so after settlement [messages] is the prior list, and
    [error] is the fixed string "Unable to contact the SuperAgent
    backend. Please try again.". *)
Theorem failed_submit_rolls_back (s : AppState) :
  trim (prompt s) <> [] ->
  messages (state_of (handleSubmit_begin s))
    = messages s ++ [user_says (trim (prompt s))] /\
  messages (state_of (handleSubmit Rejected s)) = messages s /\
  error (state_of (handleSubmit Rejected s))
    = Some (lit "Unable to contact the SuperAgent backend. Please try again.").
Proof.
  intros NE. rewrite (begin_accept s NE), (handleSubmit_rejected s NE).
  repeat split.
Qed.

Lemma failed_submit_rolls_back_witness :
  trim (prompt (typed buy_aapl [])) <> [] /\
  messages (state_of (handleSubmit Rejected (typed buy_aapl []))) = [] /\
  error (state_of (handleSubmit Rejected (typed buy_aapl [])))
    = Some (lit "Unable to contact the SuperAgent backend. Please try again.").
Proof.
  assert (NE : trim (prompt (typed buy_aapl [])) <> []).
  { vm_compute. discriminate. }
  split; [exact NE|].
  exact (proj2 (failed_submit_rolls_back (typed buy_aapl []) NE)).
Defined.

(** C2. For every prompt with non-empty trimmed form P' and every prior
    list M, when the call succeeds with a payload whose [response] field
    is the string R, after settlement [messages] is M followed by
    exactly the user entry with content P' and the agent entry with
    content R. *)
Theorem successful_submit_appends_pair
  (s : AppState) (fields : list (jsstring * value)) (R : jsstring) :
  trim (prompt s) <> [] ->
  lookup (lit "response") fields = Some (JStr R) ->
  messages (state_of (handleSubmit (Resolved (JObj fields)) s))
    = messages s ++
        [ {| role := user; content := JStr (trim (prompt s)) |};
          {| role := agent; content := JStr R |} ].
Proof.
  intros NE Lk. rewrite (handleSubmit_resolved _ s NE).
  simpl. rewrite Lk. reflexivity.
Qed.

Lemma successful_submit_appends_pair_witness :
  messages (state_of (handleSubmit
     (Resolved (JObj [(lit "response", JStr (lit "Yes, 10 shares."))]))
     (typed (lit "  Buy AAPL? ") [])))
  = [ {| role := user; content := JStr (lit "Buy AAPL?") |};
      {| role := agent; content := JStr (lit "Yes, 10 shares.") |} ].
Proof.
  apply (successful_submit_appends_pair
           (typed (lit "  Buy AAPL? ") [])
           [(lit "response", JStr (lit "Yes, 10 shares."))]
           (lit "Yes, 10 shares.")).
  - vm_compute. discriminate.
  - reflexivity.
Defined.

(** C5. For every prompt whose trimmed form is empty, the handler does
    nothing beyond [preventDefault]: the whole state ([messages],
    [isLoading], [error] and the input itself) is unchanged, no state
    setter runs and no outbound call is issued. *)
Theorem blank_submit_is_noop (s : AppState) (o : Outcome) :
  trim (prompt s) = [] ->
  state_of (handleSubmit o s) = s /\
  result_of (handleSubmit o s) = None /\
  existsb writes_state (log_of (handleSubmit o s)) = false /\
  existsb is_post (log_of (handleSubmit o s)) = false.
Proof.
  intros E. rewrite (handleSubmit_noop o s E). repeat split.
Qed.

Lemma blank_submit_is_noop_witness :
  state_of (handleSubmit Rejected
              {| prompt := [0x20; 0x9; 0xA0]%N;
                 messages := [user_says buy_aapl];
                 isLoading := false;
                 error := Some CONTACT_ERROR |})
  = {| prompt := [0x20; 0x9; 0xA0]%N;
       messages := [user_says buy_aapl];
       isLoading := false;
       error := Some CONTACT_ERROR |}.
Proof.
  refine (proj1 (blank_submit_is_noop _ Rejected _)).
  reflexivity.
Defined.

(** C6. When the call succeeds with a payload that has no [response]
    field, the agent message appended after the user message has the
    content "No response received.". *)
Theorem missing_response_uses_fallback
  (s : AppState) (fields : list (jsstring * value)) :
  trim (prompt s) <> [] ->
  lookup (lit "response") fields = None ->
  messages (state_of (handleSubmit (Resolved (JObj fields)) s))
    = messages s ++
        [ {| role := user; content := JStr (trim (prompt s)) |};
          {| role := agent; content := JStr (lit "No response received.") |} ].
Proof.
  intros NE Lk. rewrite (handleSubmit_resolved _ s NE).
  simpl. rewrite Lk. reflexivity.
Qed.

Lemma missing_response_uses_fallback_witness :
  messages (state_of (handleSubmit
     (Resolved (JObj [(lit "status", JStr (lit "ok"))]))
     (typed buy_aapl [])))
  = [ {| role := user; content := JStr buy_aapl |};
      {| role := agent; content := JStr (lit "No response received.") |} ].
Proof.
  apply (missing_response_uses_fallback
           (typed buy_aapl []) [(lit "status", JStr (lit "ok"))]).
  - vm_compute. discriminate.
  - reflexivity.
Defined.

(** C9. When the call succeeds with a payload whose [response] field is
    present with the value [null], the appended agent message has the
    content "No response received.", exactly as for an absent field;
    [null] is not the content. *)
Theorem null_response_uses_fallback
  (s : AppState) (fields : list (jsstring * value)) :
  trim (prompt s) <> [] ->
  lookup (lit "response") fields = Some JNull ->
  messages (state_of (handleSubmit (Resolved (JObj fields)) s))
    = messages s ++
        [ {| role := user; content := JStr (trim (prompt s)) |};
          {| role := agent; content := JStr (lit "No response received.") |} ].
Proof.
  intros NE Lk. rewrite (handleSubmit_resolved _ s NE).
  simpl. rewrite Lk. reflexivity.
Qed.

Lemma null_response_uses_fallback_witness :
  messages (state_of (handleSubmit
     (Resolved (JObj [(lit "response", JNull)]))
     (typed buy_aapl [])))
  = [ {| role := user; content := JStr buy_aapl |};
      {| role := agent; content := JStr (lit "No response received.") |} ].
Proof.
  apply (null_response_uses_fallback
           (typed buy_aapl []) [(lit "response", JNull)]).
  - vm_compute. discriminate.
  - reflexivity.
Defined.

(** ** The loading flag and single flight *)

Lemma reachable_with_prompt (p : jsstring) : reachable (with_prompt p).
Proof. exists [Change p]. reflexivity. Qed.

Lemma reachable_awaiting : reachable awaiting.
Proof. exists [Change buy_aapl; Submit]. reflexivity. Qed.

(** C3. For every submission with a non-empty trimmed prompt,
    [isLoading] is set to [true] before the outbound call is issued, is
    [true] while the request is pending, and is set back to [false] by
    the last effect of the settlement, on the success path and on the
    failure path alike; and in every reachable state [isLoading] is
    [true] exactly when a request is pending, so it is [false] at all
    times outside that interval (in particular before the
    submission). *)
Theorem loading_flag_spans_request (w : Sys) (o : Outcome) :
  reachable w ->
  trim (prompt (ui w)) <> [] ->
  isLoading (ui w) = false /\
  occurs_before (is_set_loading true) is_post
    (log_of (handleSubmit_begin (ui w))) = true /\
  isLoading (state_of (handleSubmit_begin (ui w))) = true /\
  last (log_of (handleSubmit_resume o (state_of (handleSubmit_begin (ui w)))))
       PreventDefault = SetIsLoading false /\
  isLoading (state_of (handleSubmit o (ui w))) = false /\
  (forall v, reachable v -> (isLoading (ui v) = true <-> inflight v <> [])).
Proof.
  intros Rw NE. split; [|split; [|split; [|split; [|split]]]].
  - pose proof (reachable_single_flight w Rw) as SF.
    destruct (isLoading (ui w)) eqn:L; [|reflexivity].
    destruct (single_flight_loading w SF L) as [P _].
    rewrite P in NE. contradiction NE. reflexivity.
  - rewrite (begin_accept _ NE). reflexivity.
  - rewrite (begin_accept _ NE). reflexivity.
  - destruct o; reflexivity.
  - rewrite (handleSubmit_state o _ NE). apply resume_clears_loading.
  - intros v Rv. pose proof (reachable_single_flight v Rv) as SF.
    unfold single_flight in SF.
    destruct (isLoading (ui v)); split; intros H; try discriminate.
    + destruct SF as [_ Len]. destruct (inflight v); [discriminate|discriminate].
    + reflexivity.
    + contradiction.
Qed.

Lemma loading_flag_spans_request_witness :
  reachable (with_prompt buy_aapl) /\
  trim (prompt (ui (with_prompt buy_aapl))) <> [] /\
  isLoading (state_of (handleSubmit_begin (ui (with_prompt buy_aapl)))) = true /\
  isLoading (state_of (handleSubmit Rejected (ui (with_prompt buy_aapl)))) = false /\
  (isLoading (ui awaiting) = true <-> inflight awaiting <> []).
Proof.
  assert (NE : trim (prompt (ui (with_prompt buy_aapl))) <> []).
  { vm_compute. discriminate. }
  pose proof (loading_flag_spans_request (with_prompt buy_aapl) Rejected
                (reachable_with_prompt buy_aapl) NE)
    as [_ [_ [Hin [_ [Hout Hall]]]]].
  split; [apply reachable_with_prompt|].
  split; [exact NE|].
  split; [exact Hin|].
  split; [exact Hout|].
  exact (Hall awaiting reachable_awaiting).
Defined.

(** C4. At most one request is pending at a time: in every reachable
    state in which [isLoading] is [true], the input and the submit
    button are disabled, and a submit event that reaches the handler all
    the same is ignored: the handler returns before any setter, the
    state and the set of pending requests are unchanged and no outbound
    call is issued; exactly one request is pending. *)
Theorem submit_while_loading_is_ignored (w : Sys) :
  reachable w ->
  isLoading (ui w) = true ->
  input_disabled (ui w) = true /\
  button_disabled (ui w) = true /\
  handleSubmit_begin (ui w) = (None, ui w, [PreventDefault]) /\
  step Submit w = Some w /\
  length (inflight w) = 1%nat.
Proof.
  intros Rw L. pose proof (reachable_single_flight w Rw) as SF.
  split; [exact L|]. split; [exact L|].
  split; [apply (begin_while_loading w SF L)|].
  split.
  - apply (f_equal Some).
    apply (pending_is_frozen Submit w _ SF L eq_refl).
    simpl. reflexivity.
  - apply (single_flight_loading w SF L).
Qed.

Lemma submit_while_loading_is_ignored_witness :
  reachable awaiting /\
  isLoading (ui awaiting) = true /\
  step Submit awaiting = Some awaiting.
Proof.
  split; [apply reachable_awaiting|].
  split; [reflexivity|].
  exact (proj1 (proj2 (proj2 (proj2
    (submit_while_loading_is_ignored awaiting reachable_awaiting eq_refl))))).
Defined.

(** ** Response shape *)

(** C7, as the code has it.  The error path is taken exactly when the
    awaited call is rejected.  A call that is fulfilled takes the
    success path whatever its body is: [error] stays cleared, the user
    message is kept and one agent message follows it; when the body is
    not an object (text that was not parsed, a number, [null]) that
    agent message carries "No response received.". *)
Theorem error_path_iff_rejected (s : AppState) (o : Outcome) :
  trim (prompt s) <> [] ->
  (error (state_of (handleSubmit o s)) = Some CONTACT_ERROR <-> o = Rejected) /\
  (forall data, o = Resolved data ->
     error (state_of (handleSubmit o s)) = None /\
     messages (state_of (handleSubmit o s))
       = messages s ++
           [user_says (trim (prompt s));
            agent_says (nullish_coalesce (optional_get data (lit "response"))
                                         (JStr (lit "No response received.")))]) /\
  (forall data, o = Resolved data -> is_plain_object data = false ->
     messages (state_of (handleSubmit o s))
       = messages s ++
           [user_says (trim (prompt s));
            agent_says (JStr (lit "No response received."))]).
Proof.
  intros NE. split; [|split].
  - destruct o as [data|].
    + rewrite (handleSubmit_resolved data s NE). simpl.
      split; intros H; discriminate.
    + rewrite (handleSubmit_rejected s NE). simpl.
      split; intros _; reflexivity.
  - intros data ->. rewrite (handleSubmit_resolved data s NE). simpl.
    split; reflexivity.
  - intros data -> NO. rewrite (handleSubmit_resolved data s NE). simpl.
    destruct data; try discriminate; reflexivity.
Qed.

Lemma error_path_iff_rejected_witness :
  trim (prompt (typed buy_aapl [])) <> [] /\
  (error (state_of (handleSubmit Rejected (typed buy_aapl [])))
     = Some CONTACT_ERROR <-> Rejected = Rejected).
Proof.
  assert (NE : trim (prompt (typed buy_aapl [])) <> []).
  { vm_compute. discriminate. }
  split; [exact NE|].
  exact (proj1 (error_path_iff_rejected (typed buy_aapl []) Rejected NE)).
Defined.

(** C7, as stated, fails: a fulfilled call whose body is unparsed text
    does not set [error] and does not roll the user message back; it
    appends the fallback agent message. *)
Lemma malformed_body_takes_success_path :
  let s' := state_of (handleSubmit (Resolved (JStr (lit "<html>Bad Gateway</html>")))
                                   (typed buy_aapl [])) in
  ~ (error s' = Some CONTACT_ERROR /\ messages s' = []) /\
  error s' = None /\
  messages s' = [user_says buy_aapl; agent_says (JStr (lit "No response received."))].
Proof.
  cbv zeta. split; [|split].
  - intros [H _]. vm_compute in H. discriminate.
  - reflexivity.
  - reflexivity.
Qed.

(** ** Order of effects *)

(** C8, as the code has it.  In every accepted submission the effects
    are, in this order: [preventDefault], the append of the user
    message, the clearing of the input, [isLoading] set to [true], the
    clearing of [error], and then the single outbound call carrying the
    trimmed prompt.  So [error] is cleared after [isLoading] is set, and
    both happen before the call is issued. *)
Theorem begin_effect_order (s : AppState) :
  trim (prompt s) <> [] ->
  log_of (handleSubmit_begin s)
    = [PreventDefault;
       SetMessages (append_message (user_says (trim (prompt s))));
       SetPrompt [];
       SetIsLoading true;
       SetError None;
       AxiosPost (post_request (trim (prompt s)))] /\
  occurs_before is_set_messages is_set_prompt (log_of (handleSubmit_begin s)) = true /\
  occurs_before is_set_prompt (is_set_loading true) (log_of (handleSubmit_begin s)) = true /\
  occurs_before (is_set_loading true) is_clear_error (log_of (handleSubmit_begin s)) = true /\
  occurs_before is_clear_error is_post (log_of (handleSubmit_begin s)) = true /\
  length (filter is_post (log_of (handleSubmit_begin s))) = 1%nat.
Proof.
  intros NE. rewrite (begin_accept s NE). repeat split.
Qed.

Lemma begin_effect_order_witness :
  trim (prompt (typed buy_aapl [])) <> [] /\
  occurs_before (is_set_loading true) is_clear_error
    (log_of (handleSubmit_begin (typed buy_aapl []))) = true.
Proof.
  assert (NE : trim (prompt (typed buy_aapl [])) <> []).
  { vm_compute. discriminate. }
  split; [exact NE|].
  exact (proj1 (proj2 (proj2 (proj2
    (begin_effect_order (typed buy_aapl []) NE))))).
Defined.

(** C8, as stated, fails: when "Buy AAPL?" is submitted, the clearing of
    [error] does not come before [isLoading] is set to [true]; it comes
    after. *)
Lemma error_not_cleared_before_loading :
  ~ (occurs_before is_clear_error (is_set_loading true)
       (log_of (handleSubmit_begin (typed buy_aapl []))) = true) /\
  index_of (is_set_loading true) (log_of (handleSubmit_begin (typed buy_aapl [])))
    = Some 3%nat /\
  index_of is_clear_error (log_of (handleSubmit_begin (typed buy_aapl [])))
    = Some 4%nat.
Proof.
  split; [|split].
  - intros H. vm_compute in H. discriminate.
  - reflexivity.
  - reflexivity.
Qed.

(** ** Frame *)

(** C10, as the code has it.  Every invocation keeps the prior messages
    as an unmodified prefix: while the request is pending [messages] is
    the prior list followed by at most the user entry, and after
    settlement it is the prior list followed by zero entries (no-op,
    failure) or two (success).  Besides [messages], an accepted
    submission writes the input, [error] and [isLoading]: [isLoading] is
    set to [true] while the request is pending and to [false] at
    settlement; an invocation that is not accepted leaves it alone. *)
Theorem submit_extends_messages (s : AppState) (o : Outcome) :
  messages (state_of (handleSubmit_begin s)) = messages s ++ pending_tail s /\
  messages (state_of (handleSubmit o s)) = messages s ++ settled_tail s o /\
  (length (settled_tail s o) = 0%nat \/ length (settled_tail s o) = 2%nat) /\
  isLoading (state_of (handleSubmit_begin s))
    = (if not_string (trim (prompt s)) then isLoading s else true) /\
  isLoading (state_of (handleSubmit o s))
    = (if not_string (trim (prompt s)) then isLoading s else false).
Proof.
  unfold pending_tail, settled_tail.
  destruct (trim (prompt s)) as [|c t] eqn:E.
  - rewrite (handleSubmit_noop o s E), (begin_noop s E). simpl.
    rewrite app_nil_r. repeat split. left. reflexivity.
  - assert (NE : trim (prompt s) <> []) by (rewrite E; discriminate).
    rewrite (begin_accept s NE). rewrite E. simpl.
    destruct o as [data|].
    + rewrite (handleSubmit_resolved data s NE). rewrite E. simpl.
      repeat split. right. reflexivity.
    + rewrite (handleSubmit_rejected s NE). simpl.
      rewrite app_nil_r. repeat split. left. reflexivity.
Qed.

(** C10, as stated, fails: a successful submission of "Buy AAPL?" writes
    a cell other than [messages], the input and [error], namely
    [isLoading], which differs from its prior value while the request is
    pending. *)
Lemma submit_writes_loading_flag :
  ~ (touches_only [CMessages; CPrompt; CError]
       (log_of (handleSubmit
          (Resolved (JObj [(lit "response", JStr (lit "Yes, 10 shares."))]))
          (typed buy_aapl []))) = true) /\
  isLoading (state_of (handleSubmit_begin (typed buy_aapl [])))
    <> isLoading (typed buy_aapl []).
Proof.
  split.
  - intros H. vm_compute in H. discriminate.
  - vm_compute. discriminate.
Qed.

(** * Further properties of the component *)

(** ** Rollback on any list *)

(** X1. The updater of line 37, [prev.slice(0, -1)], is "remove the
    last element" on every list: it returns the empty list on the empty
    list and drops exactly the final entry otherwise. *)
Theorem drop_last_is_removelast (l : list Message) :
  drop_last l = removelast l /\
  length (drop_last l) = pred (length l).
Proof.
  induction l as [|x l' _] using rev_ind.
  - split; reflexivity.
  - unfold drop_last. rewrite slice_drops_last, removelast_last, length_app.
    simpl. split; [reflexivity|lia].
Qed.

(** ** What [trim] leaves *)

Lemma trim_start_split (s : jsstring) :
  exists pre, s = pre ++ trim_start s /\ forallb is_trimmable pre = true.
Proof.
  induction s as [|c t IH]; simpl.
  - exists []. split; reflexivity.
  - destruct (is_trimmable c) eqn:T.
    + destruct IH as [pre [E F]]. exists (c :: pre). simpl.
      rewrite T, <- E. split; [reflexivity|exact F].
    + exists []. split; reflexivity.
Qed.

Lemma trim_start_head (s : jsstring) :
  is_trimmable (hd 0%N (trim_start s)) = false \/ trim_start s = [].
Proof.
  induction s as [|c t IH]; simpl.
  - right. reflexivity.
  - destruct (is_trimmable c) eqn:T; [exact IH|]. left. exact T.
Qed.

Lemma trim_start_fixed (s : jsstring) :
  is_trimmable (hd 0%N s) = false -> trim_start s = s.
Proof.
  destruct s as [|c t]; simpl; [reflexivity|]. intros ->. reflexivity.
Qed.

Lemma trim_start_idem (s : jsstring) : trim_start (trim_start s) = trim_start s.
Proof.
  destruct (trim_start_head s) as [H|H].
  - apply trim_start_fixed. exact H.
  - rewrite H. reflexivity.
Qed.

Lemma trim_start_blank (s : jsstring) :
  forallb is_trimmable s = true -> trim_start s = [].
Proof.
  induction s as [|c t IH]; simpl; [reflexivity|].
  intros H. apply andb_prop in H. destruct H as [-> H]. apply IH. exact H.
Qed.

Lemma trim_start_skips (pre s : jsstring) :
  forallb is_trimmable pre = true -> trim_start (pre ++ s) = trim_start s.
Proof.
  induction pre as [|c t IH]; simpl; [reflexivity|].
  intros H. apply andb_prop in H. destruct H as [-> H]. apply IH. exact H.
Qed.

Lemma trim_start_keeps_tail (s post : jsstring) :
  trim_start s <> [] -> trim_start (s ++ post) = trim_start s ++ post.
Proof.
  induction s as [|c t IH]; simpl.
  - intros H. contradiction H. reflexivity.
  - destruct (is_trimmable c); [exact IH|]. reflexivity.
Qed.

Lemma trim_end_split (s : jsstring) :
  exists suf, s = trim_end s ++ suf /\ forallb is_trimmable suf = true.
Proof.
  destruct (trim_start_split (rev s)) as [pre [E F]].
  exists (rev pre). split.
  - unfold trim_end. rewrite <- rev_app_distr, <- E. symmetry. apply rev_involutive.
  - rewrite forallb_forall in *. intros c Hc. apply F.
    apply in_rev. exact Hc.
Qed.

Lemma trim_end_idem (s : jsstring) : trim_end (trim_end s) = trim_end s.
Proof.
  unfold trim_end. rewrite rev_involutive, trim_start_idem. reflexivity.
Qed.

Lemma trim_end_skips (s post : jsstring) :
  forallb is_trimmable post = true -> trim_end (s ++ post) = trim_end s.
Proof.
  intros F. unfold trim_end. rewrite rev_app_distr, trim_start_skips; [reflexivity|].
  rewrite forallb_forall in *. intros c Hc. apply F. apply in_rev. exact Hc.
Qed.

Lemma trim_end_last (s : jsstring) :
  is_trimmable (last (trim_end s) 0%N) = false \/ trim_end s = [].
Proof.
  unfold trim_end. destruct (trim_start_head (rev s)) as [H|H].
  - destruct (trim_start (rev s)) as [|c t] eqn:E.
    + right. reflexivity.
    + left. simpl rev. rewrite last_last. exact H.
  - right. rewrite H. reflexivity.
Qed.

(** Trimming the end keeps a head that is not white space. *)
Lemma trim_end_keeps_head (c : code_unit) (t : jsstring) :
  is_trimmable c = false -> exists t', trim_end (c :: t) = c :: t'.
Proof.
  intros T. destruct (trim_end_split (c :: t)) as [suf [E F]].
  destruct (trim_end (c :: t)) as [|c' t'] eqn:Q.
  - simpl in E. subst suf. simpl in F. rewrite T in F. discriminate.
  - simpl in E. injection E as <- _. exists t'. reflexivity.
Qed.

Lemma trim_head (s : jsstring) :
  is_trimmable (hd 0%N (trim s)) = false \/ trim s = [].
Proof.
  unfold trim. destruct (trim_start_head s) as [H|H].
  - destruct (trim_start s) as [|c t] eqn:E.
    + right. reflexivity.
    + simpl in H. destruct (trim_end_keeps_head c t H) as [t' ->].
      left. exact H.
  - right. rewrite H. reflexivity.
Qed.

Lemma trim_idem (s : jsstring) : trim (trim s) = trim s.
Proof.
  destruct (trim_head s) as [H|H].
  - unfold trim at 1. rewrite (trim_start_fixed _ H).
    unfold trim. apply trim_end_idem.
  - rewrite H. reflexivity.
Qed.

Lemma trim_surrounding (pre s post : jsstring) :
  forallb is_trimmable pre = true ->
  forallb is_trimmable post = true ->
  trim (pre ++ s ++ post) = trim s.
Proof.
  intros Fpre Fpost. unfold trim. rewrite (trim_start_skips pre _ Fpre).
  destruct (trim_start s) as [|c t] eqn:E.
  - destruct (trim_start_split s) as [ws [Es Fs]]. rewrite E, app_nil_r in Es.
    subst ws. rewrite trim_start_blank; [reflexivity|].
    rewrite forallb_app, Fs, Fpost. reflexivity.
  - rewrite trim_start_keeps_tail by (rewrite E; discriminate).
    rewrite E. apply trim_end_skips. exact Fpost.
Qed.

Lemma jsstring_eqb_eq (a b : jsstring) : jsstring_eqb a b = true <-> a = b.
Proof.
  unfold jsstring_eqb. destruct (list_eq_dec N.eq_dec a b); split; congruence.
Qed.

Lemma result_accept (s : AppState) (r : Request) :
  result_of (handleSubmit_begin s) = Some r ->
  trim (prompt s) <> [] /\ r = post_request (trim (prompt s)).
Proof.
  intros H. destruct (list_eq_dec N.eq_dec (trim (prompt s)) []) as [E|NE].
  - rewrite (begin_noop s E) in H. discriminate.
  - rewrite (begin_accept s NE) in H. injection H as <-. split; [exact NE|reflexivity].
Qed.

(** X2. Whenever the handler issues a request, what it sends and what
    it shows agree and are trimmed: the [prompt] field of the body is
    the content of the user message just appended, it goes to
    [API_URL], it is not empty, it neither begins nor ends with white
    space or a line terminator, and trimming it again changes
    nothing. *)
Theorem sent_prompt_is_trimmed (s : AppState) (r : Request) :
  result_of (handleSubmit_begin s) = Some r ->
  url r = API_URL /\
  body r = [(lit "prompt", JStr (trim (prompt s)))] /\
  messages (state_of (handleSubmit_begin s))
    = messages s ++ [ {| role := user; content := JStr (trim (prompt s)) |} ] /\
  trim (prompt s) <> [] /\
  is_trimmable (hd 0%N (trim (prompt s))) = false /\
  is_trimmable (last (trim (prompt s)) 0%N) = false /\
  trim (trim (prompt s)) = trim (prompt s).
Proof.
  intros H. destruct (result_accept s r H) as [NE ->].
  rewrite (begin_accept s NE).
  repeat split; try exact NE.
  - destruct (trim_head (prompt s)) as [T|T]; [exact T|contradiction].
  - destruct (trim_end_last (trim_start (prompt s))) as [T|T]; [exact T|contradiction].
  - apply trim_idem.
Qed.

Lemma sent_prompt_is_trimmed_witness :
  body (post_request buy_aapl) = [(lit "prompt", JStr (trim (lit "  Buy AAPL? ")))] /\
  trim (trim (lit "  Buy AAPL? ")) = trim (lit "  Buy AAPL? ").
Proof.
  pose proof (sent_prompt_is_trimmed (typed (lit "  Buy AAPL? ") [])
                (post_request buy_aapl) eq_refl) as [_ [B [_ [_ [_ [_ I]]]]]].
  split; [exact B|exact I].
Defined.

(** X3. White space around the prompt is insignificant: two prompts
    that differ only in leading and trailing white space or line
    terminators make the handler issue the same request (or none), run
    the same effects and leave the same messages. *)
Theorem surrounding_space_is_insignificant
  (s : AppState) (pre p post : jsstring) :
  forallb is_trimmable pre = true ->
  forallb is_trimmable post = true ->
  result_of (handleSubmit_begin (set_prompt_of s (pre ++ p ++ post)))
    = result_of (handleSubmit_begin (set_prompt_of s p)) /\
  log_of (handleSubmit_begin (set_prompt_of s (pre ++ p ++ post)))
    = log_of (handleSubmit_begin (set_prompt_of s p)) /\
  messages (state_of (handleSubmit_begin (set_prompt_of s (pre ++ p ++ post))))
    = messages (state_of (handleSubmit_begin (set_prompt_of s p))).
Proof.
  intros Fpre Fpost.
  pose proof (trim_surrounding pre p post Fpre Fpost) as T.
  destruct (list_eq_dec N.eq_dec (trim p) []) as [E|NE].
  - rewrite (begin_noop (set_prompt_of s p)) by exact E.
    rewrite (begin_noop (set_prompt_of s (pre ++ p ++ post)))
      by (simpl; rewrite T; exact E).
    repeat split.
  - rewrite (begin_accept (set_prompt_of s p)) by exact NE.
    rewrite (begin_accept (set_prompt_of s (pre ++ p ++ post)))
      by (simpl; rewrite T; exact NE).
    simpl. rewrite T. repeat split.
Qed.

Lemma surrounding_space_is_insignificant_witness :
  result_of (handleSubmit_begin
               (set_prompt_of initial_state
                  ([0x20; 0xA0]%N ++ buy_aapl ++ [0xA; 0x9]%N)))
  = result_of (handleSubmit_begin (set_prompt_of initial_state buy_aapl)).
Proof.
  exact (proj1 (surrounding_space_is_insignificant initial_state
                  [0x20; 0xA0]%N buy_aapl [0xA; 0x9]%N eq_refl eq_refl)).
Defined.

(** X4. The fallback applies to [null] and [undefined] only: a
    [response] of any other value, including the empty string, [false]
    and [0], becomes the content of the agent message unchanged. *)
Theorem any_defined_response_is_kept
  (s : AppState) (fields : list (jsstring * value)) (R : value) :
  trim (prompt s) <> [] ->
  lookup (lit "response") fields = Some R ->
  is_nullish R = false ->
  messages (state_of (handleSubmit (Resolved (JObj fields)) s))
    = messages s ++
        [ {| role := user; content := JStr (trim (prompt s)) |};
          {| role := agent; content := R |} ].
Proof.
  intros NE Lk NN. rewrite (handleSubmit_resolved _ s NE).
  simpl. rewrite Lk. unfold nullish_coalesce. rewrite NN. reflexivity.
Qed.

Lemma any_defined_response_is_kept_witness :
  messages (state_of (handleSubmit
     (Resolved (JObj [(lit "response", JStr [])])) (typed buy_aapl [])))
  = [ {| role := user; content := JStr buy_aapl |};
      {| role := agent; content := JStr [] |} ] /\
  messages (state_of (handleSubmit
     (Resolved (JObj [(lit "response", JBool false)])) (typed buy_aapl [])))
  = [ {| role := user; content := JStr buy_aapl |};
      {| role := agent; content := JBool false |} ].
Proof.
  assert (NE : trim (prompt (typed buy_aapl [])) <> []).
  { vm_compute. discriminate. }
  split.
  - exact (any_defined_response_is_kept (typed buy_aapl [])
             [(lit "response", JStr [])] (JStr []) NE eq_refl eq_refl).
  - exact (any_defined_response_is_kept (typed buy_aapl [])
             [(lit "response", JBool false)] (JBool false) NE eq_refl eq_refl).
Defined.

(** ** Invariants of a session *)

Lemma well_paired_app_bounded (n : nat) :
  forall pre l, (length pre <= n)%nat -> well_paired pre = true ->
  well_paired (pre ++ l) = well_paired l.
Proof.
  induction n as [|n IH]; intros pre l Len W.
  - destruct pre; [reflexivity|simpl in Len; lia].
  - destruct pre as [|u [|a rest]]; [reflexivity|discriminate|].
    simpl in W. apply andb_prop in W. destruct W as [UA W].
    simpl. rewrite UA. simpl. apply IH; [simpl in Len; lia|exact W].
Qed.

Lemma well_paired_app (pre l : list Message) :
  well_paired pre = true -> well_paired (pre ++ l) = well_paired l.
Proof. apply (well_paired_app_bounded (length pre)). lia. Qed.

Lemma coalesce_defined (a : value) (x : jsstring) :
  is_nullish (nullish_coalesce a (JStr x)) = false.
Proof. unfold nullish_coalesce. destruct (is_nullish a) eqn:E; [reflexivity|exact E]. Qed.

Lemma user_message_ok (p : jsstring) :
  trim p <> [] -> message_ok (user_says (trim p)) = true.
Proof.
  intros NE. unfold message_ok. simpl.
  apply andb_true_intro. split.
  - destruct (trim p); [contradiction|reflexivity].
  - apply jsstring_eqb_eq. apply trim_idem.
Qed.

Lemma session_ok_init : session_ok init.
Proof. repeat split. Qed.

Lemma idle_or_blank (w : Sys) :
  single_flight w -> trim (prompt (ui w)) <> [] -> isLoading (ui w) = false.
Proof.
  intros SF NE. destruct (isLoading (ui w)) eqn:L; [|reflexivity].
  destruct (single_flight_loading w SF L) as [P _].
  rewrite P in NE. contradiction NE. reflexivity.
Qed.

Lemma settle_enabled_loading (w : Sys) (i : nat) (q : Request) :
  single_flight w -> nth_error (inflight w) i = Some q ->
  isLoading (ui w) = true.
Proof.
  intros SF Nth. destruct (isLoading (ui w)) eqn:L; [reflexivity|].
  rewrite (single_flight_idle w SF L) in Nth. destruct i; discriminate.
Qed.

Lemma step_session_ok (a : Action) (w w' : Sys) :
  session_ok w -> step a w = Some w' -> session_ok w'.
Proof.
  intros [SF [CS [MO ES]]] St.
  split; [exact (step_single_flight a w w' SF St)|].
  destruct a as [v| |i o]; cbn [step] in St.
  - unfold input_disabled in St.
    destruct (isLoading (ui w)) eqn:L; [discriminate|].
    injection St as <-.
    unfold conversation_shape, error_shape in *. simpl. rewrite L in *.
    repeat split; assumption.
  - injection St as <-.
    destruct (list_eq_dec N.eq_dec (trim (prompt (ui w))) []) as [E|NE].
    + rewrite (begin_noop _ E). unfold state_of, result_of. simpl.
      unfold conversation_shape in *. simpl. rewrite app_nil_r.
      repeat split; assumption.
    + pose proof (idle_or_blank w SF NE) as L.
      rewrite (begin_accept _ NE). unfold state_of, result_of. simpl.
      unfold conversation_shape, error_shape in *. simpl. rewrite L in CS.
      rewrite (single_flight_idle w SF L). split; [|split].
      * exists (messages (ui w)), (trim (prompt (ui w))).
        repeat split. exact CS.
      * rewrite forallb_app, MO. simpl. rewrite andb_true_r.
        apply user_message_ok. exact NE.
      * exact I.
  - destruct (nth_error (inflight w) i) as [q|] eqn:Nth; [|discriminate].
    injection St as <-.
    pose proof (settle_enabled_loading w i q SF Nth) as L.
    unfold conversation_shape, error_shape in *. rewrite L in CS.
    destruct CS as [pre [p [Ms [WP _]]]].
    destruct o as [data|].
    + rewrite resume_resolved. unfold state_of. simpl.
      rewrite Ms, <- app_assoc. simpl. split; [|split].
      * rewrite (well_paired_app pre _ WP). reflexivity.
      * rewrite Ms in MO. rewrite forallb_app in *.
        apply andb_prop in MO. destruct MO as [MO1 MO2]. rewrite MO1.
        simpl in *. apply andb_prop in MO2. destruct MO2 as [MO2 _]. rewrite MO2.
        unfold message_ok. simpl. rewrite coalesce_defined. reflexivity.
      * destruct (error (ui w)) as [e|]; [|exact I].
        destruct ES as [_ F]. rewrite L in F. discriminate.
    + rewrite resume_rejected. unfold state_of. simpl.
      rewrite Ms, slice_drops_last. split; [|split].
      * exact WP.
      * rewrite Ms, forallb_app in MO. apply andb_prop in MO. apply MO.
      * split; reflexivity.
Qed.

Lemma run_session_ok (acts : list Action) :
  forall w w', session_ok w -> run acts w = Some w' -> session_ok w'.
Proof.
  induction acts as [|a rest IH]; intros w w' H R; simpl in R.
  - injection R as <-. exact H.
  - destruct (step a w) as [w1|] eqn:St; [|discriminate].
    apply (IH w1 w' (step_session_ok a w w1 H St) R).
Qed.

Lemma reachable_session_ok (w : Sys) : reachable w -> session_ok w.
Proof.
  intros [acts R]. exact (run_session_ok acts init w session_ok_init R).
Qed.

(** X5. No dangling message: in every reachable state the thread is a
    sequence of complete exchanges (user message, agent message) when no
    request is pending; while one is pending it is such a sequence
    followed by exactly one user message, whose text is the prompt the
    pending request carries. *)
Theorem thread_is_paired (w : Sys) :
  reachable w ->
  if isLoading (ui w)
  then exists pre p,
         messages (ui w) = pre ++ [ {| role := user; content := JStr p |} ] /\
         well_paired pre = true /\
         inflight w = [post_request p]
  else well_paired (messages (ui w)) = true.
Proof.
  intros Rw. destruct (reachable_session_ok w Rw) as [_ [CS _]]. exact CS.
Qed.

Lemma thread_is_paired_witness :
  exists pre p,
    messages (ui awaiting) = pre ++ [ {| role := user; content := JStr p |} ] /\
    well_paired pre = true /\
    inflight awaiting = [post_request p].
Proof.
  exact (thread_is_paired awaiting reachable_awaiting).
Defined.

(** X6. What the thread can hold: in every reachable state each user
    message holds a non-empty string without leading or trailing white
    space, and no agent message holds [null] or [undefined]. *)
Theorem stored_messages_are_well_formed (w : Sys) (m : Message) :
  reachable w ->
  In m (messages (ui w)) ->
  match role m with
  | user => exists p, content m = JStr p /\ p <> [] /\ trim p = p
  | agent => is_nullish (content m) = false
  end.
Proof.
  intros Rw Hin. destruct (reachable_session_ok w Rw) as [_ [_ [MO _]]].
  rewrite forallb_forall in MO. specialize (MO m Hin).
  unfold message_ok in MO. destruct (role m).
  - destruct (content m) as [| | | |p| |]; try discriminate.
    apply andb_prop in MO. destruct MO as [NE T].
    exists p. split; [reflexivity|]. split.
    + destruct p; [discriminate|discriminate].
    + apply jsstring_eqb_eq. exact T.
  - apply negb_true_iff. exact MO.
Qed.

Lemma stored_messages_are_well_formed_witness :
  exists p, JStr buy_aapl = JStr p /\ p <> [] /\ trim p = p.
Proof.
  exact (stored_messages_are_well_formed awaiting (user_says buy_aapl)
           reachable_awaiting (or_introl eq_refl)).
Defined.

(** X7. The error cell: in every reachable state [error] is [null] or
    the one fixed string, and it is [null] for as long as a request is
    pending. *)
Theorem error_is_fixed_or_null (w : Sys) :
  reachable w ->
  (error (ui w) = None \/
   error (ui w)
     = Some (lit "Unable to contact the SuperAgent backend. Please try again.")) /\
  (isLoading (ui w) = true -> error (ui w) = None).
Proof.
  intros Rw. destruct (reachable_session_ok w Rw) as [_ [_ [_ ES]]].
  unfold error_shape in ES. destruct (error (ui w)) as [e|].
  - destruct ES as [-> F]. split; [right; reflexivity|].
    intros L. rewrite L in F. discriminate.
  - split; [left; reflexivity|reflexivity].
Qed.

Lemma error_is_fixed_or_null_witness :
  reachable awaiting /\ error (ui awaiting) = None.
Proof.
  split; [apply reachable_awaiting|].
  exact (proj2 (error_is_fixed_or_null awaiting reachable_awaiting) eq_refl).
Defined.

(** X8. What the user sees: in every reachable state the button reads
    "Sending..." exactly when a request is pending; then both controls
    are disabled, the input is empty, the hint for an empty thread is
    gone and no error line is shown.  The error line shows exactly the
    stored error. *)
Theorem view_tracks_pending_request (w : Sys) :
  reachable w ->
  (button_label (render (ui w)) = lit "Sending..." <-> inflight w <> []) /\
  (inflight w <> [] ->
     input_off (render (ui w)) = true /\
     button_off (render (ui w)) = true /\
     input_value (render (ui w)) = [] /\
     empty_hint (render (ui w)) = None /\
     error_line (render (ui w)) = None) /\
  error_line (render (ui w)) = error (ui w).
Proof.
  intros Rw. destruct (reachable_session_ok w Rw) as [SF [CS [_ ES]]].
  unfold single_flight, conversation_shape, error_shape in *.
  unfold render, input_disabled, button_disabled. simpl.
  assert (EL : match error (ui w) with
               | Some e => if not_string e then None else Some e
               | None => None
               end = error (ui w)).
  { destruct (error (ui w)) as [e|]; [|reflexivity].
    destruct ES as [-> _]. reflexivity. }
  rewrite EL.
  destruct (isLoading (ui w)) eqn:L.
  - destruct SF as [P Len]. destruct CS as [pre [p [Ms _]]].
    assert (NE : inflight w <> []).
    { destruct (inflight w); [discriminate|discriminate]. }
    split; [split; [intros _; exact NE|reflexivity]|].
    split; [|reflexivity].
    intros _. repeat split; try assumption.
    + rewrite Ms, length_app. simpl.
      replace (length pre + 1)%nat with (S (length pre)) by lia. reflexivity.
    + destruct (error (ui w)) as [e|]; [|reflexivity].
      destruct ES as [_ F]. discriminate.
  - split; [split|].
    + intros H. vm_compute in H. discriminate.
    + intros H. contradiction.
    + split; [|reflexivity]. intros H. contradiction.
Qed.

Lemma view_tracks_pending_request_witness :
  reachable awaiting /\
  button_label (render (ui awaiting)) = lit "Sending..." /\
  error_line (render (ui awaiting)) = error (ui awaiting).
Proof.
  pose proof (view_tracks_pending_request awaiting reachable_awaiting)
    as [[_ B] [_ E]].
  split; [apply reachable_awaiting|]. split; [|exact E].
  apply B. discriminate.
Defined.

(** ** Bubbles and their keys *)

Lemma N_of_ascii_inj (a b : ascii) : N_of_ascii a = N_of_ascii b -> a = b.
Proof.
  intros H. rewrite <- (ascii_N_embedding a), <- (ascii_N_embedding b), H.
  reflexivity.
Qed.

Lemma lit_inj (a b : string) : lit a = lit b -> a = b.
Proof.
  unfold lit. intros H.
  rewrite <- (string_of_list_ascii_of_string a),
          <- (string_of_list_ascii_of_string b).
  f_equal. revert H.
  generalize (list_ascii_of_string a) (list_ascii_of_string b).
  induction l as [|x l IH]; intros [|y l'] H; simpl in H;
    try discriminate; [reflexivity|].
  injection H as Hx Hl. f_equal; [apply N_of_ascii_inj; exact Hx|apply IH; exact Hl].
Qed.

Lemma number_to_string_inj (i j : nat) :
  number_to_string i = number_to_string j -> i = j.
Proof.
  unfold number_to_string. intros H. apply lit_inj in H.
  apply DecimalNat.Unsigned.to_uint_inj.
  assert (Some (Nat.to_uint i) = Some (Nat.to_uint j)) as Q.
  { rewrite <- !NilEmpty.usu, H. reflexivity. }
  injection Q as Q. exact Q.
Qed.

Example number_to_string_examples :
  number_to_string 0 = lit "0" /\
  number_to_string 7 = lit "7" /\
  number_to_string 120 = lit "120".
Proof. repeat split. Qed.

Lemma key_inj (m m' : Message) (i j : nat) :
  key (render_message m i) = key (render_message m' j) -> i = j.
Proof.
  unfold render_message. simpl. intros H.
  destruct (role m), (role m'); simpl in H;
    try discriminate; apply number_to_string_inj;
    repeat (injection H as H); exact H.
Qed.

Lemma in_map_from {A B : Type} (f : A -> nat -> B) (l : list A) :
  forall i b, In b (map_from f i l) ->
  exists k x, (i <= k)%nat /\ In x l /\ b = f x k.
Proof.
  induction l as [|x rest IH]; intros i b Hin; simpl in Hin; [contradiction|].
  destruct Hin as [<-|Hin].
  - exists i, x. split; [lia|]. split; [left; reflexivity|reflexivity].
  - destruct (IH (S i) b Hin) as [k [y [Le [Hy E]]]].
    exists k, y. split; [lia|]. split; [right; exact Hy|exact E].
Qed.


Lemma keys_distinct_from (l : list Message) :
  forall i, NoDup (map key (map_from render_message i l)).
Proof.
  induction l as [|m rest IH]; intros i; simpl; constructor.
  - intros Hin. apply in_map_iff in Hin. destruct Hin as [b [Kb Hb]].
    destruct (in_map_from render_message rest (S i) b Hb) as [k [x [Le [_ ->]]]].
    apply key_inj in Kb. lia.
  - apply IH.
Qed.

(** X9. No two bubbles of the thread share a React key, whatever the
    messages are: the key "role-index" is different at different
    positions. *)
Theorem bubble_keys_are_distinct (s : AppState) :
  NoDup (map key (bubbles (render s))).
Proof. apply keys_distinct_from. Qed.



(** ** Whole sessions *)

Lemma step_length (a : Action) (w w' : Sys) :
  session_ok w -> step a w = Some w' ->
  (length (messages (ui w')) + loading_count (ui w)
   = length (messages (ui w)) + loading_count (ui w')
     + (if is_answer a then 2 else 0))%nat.
Proof.
  intros [SF [CS _]] St. unfold loading_count.
  destruct a as [v| |i o]; cbn [step] in St.
  - unfold input_disabled in St.
    destruct (isLoading (ui w)) eqn:L; [discriminate|].
    injection St as <-. unfold state_of. simpl. rewrite L. lia.
  - injection St as <-.
    destruct (list_eq_dec N.eq_dec (trim (prompt (ui w))) []) as [E|NE].
    + rewrite (begin_noop _ E). unfold state_of. simpl. lia.
    + rewrite (begin_accept _ NE). unfold state_of. simpl.
      rewrite (idle_or_blank w SF NE), length_app. simpl. lia.
  - destruct (nth_error (inflight w) i) as [q|] eqn:Nth; [|discriminate].
    injection St as <-.
    pose proof (settle_enabled_loading w i q SF Nth) as L.
    unfold conversation_shape in CS. rewrite L in *.
    destruct CS as [pre [p [Ms _]]].
    destruct o as [data|].
    + rewrite resume_resolved. unfold state_of. simpl.
      rewrite length_app. simpl. lia.
    + rewrite resume_rejected. unfold state_of. simpl.
      rewrite Ms, slice_drops_last, length_app. simpl. lia.
Qed.

Lemma run_length (acts : list Action) :
  forall w w', session_ok w -> run acts w = Some w' ->
  (length (messages (ui w')) + loading_count (ui w)
   = length (messages (ui w)) + loading_count (ui w')
     + 2 * length (filter is_answer acts))%nat.
Proof.
  induction acts as [|a rest IH]; intros w w' H R; simpl in R.
  - injection R as <-. simpl. lia.
  - destruct (step a w) as [w1|] eqn:St; [|discriminate].
    pose proof (step_length a w w1 H St) as E1.
    pose proof (IH w1 w' (step_session_ok a w w1 H St) R) as E2.
    simpl. destruct (is_answer a); simpl length; lia.
Qed.

(** X11. Counting: after any run of the event loop from the initial
    state, the thread holds exactly two messages for each request that
    was answered with a fulfilled promise, plus the one optimistic user
    message if a request is pending.  Blank submissions, failed requests
    and edits contribute nothing. *)
Theorem thread_length_counts_answers (acts : list Action) (w : Sys) :
  run acts init = Some w ->
  length (messages (ui w))
  = (2 * length (filter is_answer acts) + loading_count (ui w))%nat.
Proof.
  intros R. pose proof (run_length acts init w session_ok_init R) as E.
  unfold loading_count in *. simpl in E. lia.
Qed.

Lemma thread_length_counts_answers_witness :
  length
    [user_says buy_aapl; agent_says (JStr (lit "Yes, 10 shares."))]
  = (2 * length (filter is_answer
       [Change buy_aapl; Submit; Settle 0 Rejected;
        Change buy_aapl; Submit;
        Settle 0 (Resolved (JObj [(lit "response", JStr (lit "Yes, 10 shares."))]))])
     + 0)%nat.
Proof.
  exact (thread_length_counts_answers
    [Change buy_aapl; Submit; Settle 0 Rejected;
     Change buy_aapl; Submit;
     Settle 0 (Resolved (JObj [(lit "response", JStr (lit "Yes, 10 shares."))]))]
    _ eq_refl).
Defined.

Lemma step_keeps_history (M : list Message) (a : Action) (w w' : Sys) :
  single_flight w ->
  (exists tail, messages (ui w) = M ++ tail /\
                (isLoading (ui w) = true -> tail <> [])) ->
  step a w = Some w' ->
  exists tail, messages (ui w') = M ++ tail /\
               (isLoading (ui w') = true -> tail <> []).
Proof.
  intros SF [tail [Ms NEt]] St.
  destruct a as [v| |i o]; cbn [step] in St.
  - unfold input_disabled in St.
    destruct (isLoading (ui w)) eqn:L; [discriminate|].
    injection St as <-. exists tail. simpl. rewrite L. split; [exact Ms|discriminate].
  - injection St as <-.
    destruct (list_eq_dec N.eq_dec (trim (prompt (ui w))) []) as [E|NE].
    + rewrite (begin_noop _ E). exists tail. split; assumption.
    + rewrite (begin_accept _ NE). simpl.
      exists (tail ++ [user_says (trim (prompt (ui w)))]).
      rewrite Ms, app_assoc. split; [reflexivity|].
      intros _ Q. apply app_eq_nil in Q. destruct Q as [_ Q]. discriminate.
  - destruct (nth_error (inflight w) i) as [q|] eqn:Nth; [|discriminate].
    injection St as <-.
    pose proof (settle_enabled_loading w i q SF Nth) as L.
    specialize (NEt L).
    destruct o as [data|].
    + rewrite resume_resolved. unfold state_of. simpl.
      eexists. rewrite Ms, <- app_assoc. split; [reflexivity|discriminate].
    + rewrite resume_rejected. unfold state_of. simpl.
      destruct (exists_last NEt) as [t' [x ->]].
      exists t'. rewrite Ms, app_assoc, slice_drops_last.
      split; [reflexivity|discriminate].
Qed.

Lemma run_keeps_history (M : list Message) (acts : list Action) :
  forall w w',
  single_flight w ->
  (exists tail, messages (ui w) = M ++ tail /\
                (isLoading (ui w) = true -> tail <> [])) ->
  run acts w = Some w' ->
  exists tail, messages (ui w') = M ++ tail.
Proof.
  induction acts as [|a rest IH]; intros w w' SF H R; simpl in R.
  - injection R as <-. destruct H as [tail [Ms _]]. exists tail. exact Ms.
  - destruct (step a w) as [w1|] eqn:St; [|discriminate].
    apply (IH w1 w' (step_single_flight a w w1 SF St)
              (step_keeps_history M a w w1 SF H St) R).
Qed.

(** X12. Settled history is never rewritten: the messages present in a
    reachable state with no request pending stay, unchanged and in
    place, at the front of the thread in every state the session can
    reach from there, whatever is typed, submitted, answered or
    failed. *)
Theorem settled_history_is_kept (w w' : Sys) (acts : list Action) :
  reachable w ->
  isLoading (ui w) = false ->
  run acts w = Some w' ->
  exists tail, messages (ui w') = messages (ui w) ++ tail.
Proof.
  intros Rw L R.
  apply (run_keeps_history (messages (ui w)) acts w w'
           (reachable_single_flight w Rw)); [|exact R].
  exists []. rewrite app_nil_r. split; [reflexivity|].
  intros Q. rewrite Q in L. discriminate.
Qed.

Lemma settled_history_is_kept_witness :
  reachable (with_prompt buy_aapl) /\
  exists tail, [user_says buy_aapl] = messages (ui (with_prompt buy_aapl)) ++ tail.
Proof.
  split; [apply reachable_with_prompt|].
  exact (settled_history_is_kept (with_prompt buy_aapl) awaiting [Submit]
           (reachable_with_prompt buy_aapl) eq_refl eq_refl).
Defined.

(** X13. Nothing can disturb a pending request: once a submission is
    accepted in a reachable state, every edit is refused and every
    further submit event changes nothing until the promise settles, the
    promise that settles is the only pending one, and the state after
    settlement is the one the handler computes on its own; no request is
    pending afterwards. *)
Theorem pending_request_is_undisturbed
  (w w' : Sys) (acts : list Action) (i : nat) (o : Outcome) :
  reachable w ->
  trim (prompt (ui w)) <> [] ->
  forallb (fun a => negb (is_settle a)) acts = true ->
  run (Submit :: acts ++ [Settle i o]) w = Some w' ->
  ui w' = state_of (handleSubmit o (ui w)) /\ inflight w' = [] /\
  forallb (fun a => match a with Change _ => false | _ => true end) acts = true.
Proof.
  intros Rw NE NS R.
  pose proof (reachable_single_flight w Rw) as SF.
  pose proof (idle_or_blank w SF NE) as L.
  destruct (accepted_cycle w w' acts i o SF L NE NS R) as [U F].
  split; [exact U|]. split; [exact F|].
  change (Submit :: acts ++ [Settle i o])
    with ([Submit] ++ acts ++ [Settle i o]) in R.
  destruct (run_app _ _ _ _ R) as [w1 [R1 R2]].
  destruct (run_app _ _ _ _ R2) as [w2 [R3 _]].
  simpl in R1. injection R1 as R1.
  assert (SF1 : single_flight w1).
  { apply (step_single_flight Submit w w1 SF). simpl. rewrite R1. reflexivity. }
  assert (L1 : isLoading (ui w1) = true).
  { rewrite <- R1. simpl. rewrite (begin_accept _ NE). reflexivity. }
  clear R R2 R1 U F. revert NS R3.
  induction acts as [|a rest IH]; intros NS R3; [reflexivity|].
  simpl in NS. apply andb_prop in NS. destruct NS as [NSa NSr].
  apply negb_true_iff in NSa. simpl in R3.
  destruct (step a w1) as [w3|] eqn:St; [|discriminate].
  pose proof (pending_is_frozen a w1 w3 SF1 L1 NSa St) as ->.
  simpl. rewrite (IH NSr R3), andb_true_r.
  destruct a; [|reflexivity|reflexivity].
  simpl in St. unfold input_disabled in St. rewrite L1 in St. discriminate.
Qed.

Lemma pending_request_is_undisturbed_witness :
  reachable (with_prompt buy_aapl) /\
  ui {| ui := {| prompt := []; messages := []; isLoading := false;
                 error := Some CONTACT_ERROR |};
        inflight := [] |}
  = state_of (handleSubmit Rejected (ui (with_prompt buy_aapl))).
Proof.
  split; [apply reachable_with_prompt|].
  refine (proj1 (pending_request_is_undisturbed (with_prompt buy_aapl) _
            [Submit; Submit] 0 Rejected
            (reachable_with_prompt buy_aapl) _ eq_refl eq_refl)).
  vm_compute. discriminate.
Defined.
